(** * TransferHttpCacheInterceptor: a shallow embedding

    The interceptor caches the responses of read-only, allow-listed HTTP
    requests in the framework's TransferState while the application is still
    rendering, and replays them from there.

    The framework classes the interceptor talks to (HttpRequest, HttpHeaders,
    HttpResponse, HttpHandler, TransferState, Observable) are external to the
    repository; each is represented by the part of its interface the
    interceptor uses.  Strings are sequences of bytes; JS [undefined] and
    [null] of an optional field are both [None]. *)

From Stdlib Require Import ZArith String Ascii.
From stdpp Require Import gmap strings list fin_maps.

Open Scope string_scope.
Open Scope list_scope.

(* ------------------------------------------------------------------ *)
(** ** Framework data *)

(** A payload ([any]) as far as the interceptor can see: it is stored and
    handed back, never inspected. *)
Inductive any : Type :=
| a_bool (b : bool)
| a_number (z : Z)
| a_string (s : string).

(** [{[name: string]: string[]}]: a JS object used as a map from header name
    to the ordered list of its values. *)
Abbreviation HeadersMap := (gmap string (list string)).

(** [HttpHeaders]: the header names it holds ([keys()]) and, per name, the
    ordered list of values ([getAll(name)], [null] when the name is absent).
    Names are taken in the form the framework normalises them to. *)
Record HttpHeaders := mkHttpHeaders { header_values : HeadersMap }.

Definition keys (headers : HttpHeaders) : list string :=
  (map_to_list (header_values headers)).*1.

Definition getAll (headers : HttpHeaders) (name : string) : option (list string) :=
  header_values headers !! name.

(** [new HttpHeaders(obj)]; [new HttpHeaders(undefined)] has no header. *)
Definition new_HttpHeaders (init : option HeadersMap) : HttpHeaders :=
  mkHttpHeaders (default ∅ init).

Record HttpRequest := mkHttpRequest {
  method : string;
  url : string
}.

(** [HttpResponse], given by the fields of the object it is built from:
    [new HttpResponse({body, headers, status, statusText, url})]. *)
Record HttpResponse := mkHttpResponse {
  resp_body : option any;
  resp_headers : HttpHeaders;
  resp_status : option Z;
  resp_statusText : option string;
  resp_url : option string
}.

(** [HttpEvent]: the union of the events of a request's life; only
    [HttpResponse] is an [instanceof HttpResponse]. *)
Inductive HttpEvent : Type :=
| HttpSentEvent
| HttpHeaderResponse (headers : HttpHeaders) (status : option Z)
| HttpProgressEvent (loaded : Z)
| HttpUserEvent (tag : string)
| HttpResponseEvent (response : HttpResponse).

(** [Observable<T>]: the notifications a subscriber receives, in order: values,
    then completion or an error. *)
Inductive Observable (T : Type) : Type :=
| Next (value : T) (rest : Observable T)
| Complete
| Error (err : string).
Arguments Next {T} value rest.
Arguments Complete {T}.
Arguments Error {T} err.

(** [observableOf(x)]. *)
Definition observableOf {T} (x : T) : Observable T := Next x Complete.

(** [HttpHandler]: [next.handle(req)] gives the forwarded stream. *)
Definition HttpHandler := HttpRequest -> Observable HttpEvent.

(* ------------------------------------------------------------------ *)
(** ** The repository's types *)

Record TransferHttpResponse := mkTransferHttpResponse {
  body : option any;
  headers : option HeadersMap;
  status : option Z;
  statusText : option string;
  t_url : option string
}.

Record TransferHttpWhitelist := mkTransferHttpWhitelist {
  w_url : string
}.

(** [{} as TransferHttpResponse] *)
Definition empty_TransferHttpResponse : TransferHttpResponse :=
  mkTransferHttpResponse None None None None None.

(** [TransferState]: the store, keyed by the strings [makeStateKey] wraps. *)
Abbreviation TransferState := (gmap string TransferHttpResponse).

(** The instance: its private fields. [whitelist] is [@Optional()]. *)
Record TransferHttpCacheInterceptor := mkInterceptor {
  isCacheActive : bool;
  transferState : TransferState;
  whitelist : option (list TransferHttpWhitelist)
}.

(* ------------------------------------------------------------------ *)
(** ** Effects

    A method of the instance reads and writes the instance and calls its
    collaborators; every call to a collaborator is logged, in order. *)

Inductive Effect : Type :=
| StoreHasKey (key : string)
| StoreGet (key : string)
| StoreSet (key : string) (value : TransferHttpResponse)
| StoreRemove (key : string)
| Handle (req : HttpRequest).

Definition M (A : Type) : Type :=
  TransferHttpCacheInterceptor -> A * TransferHttpCacheInterceptor * list Effect.

Definition ret {A} (a : A) : M A := fun this => (a, this, []).

Definition bind {A B} (m : M A) (f : A -> M B) : M B :=
  fun this =>
    let '(a, this1, log1) := m this in
    let '(b, this2, log2) := f a this1 in
    (b, this2, log1 ++ log2).

Notation "'do' x <- m ; k" := (bind m (fun x => k))
  (at level 10, x name, m at level 100, k at level 200).
Notation "'exec' m ; k" := (bind m (fun _ => k))
  (at level 10, m at level 100, k at level 200).

Definition result {A} (r : A * TransferHttpCacheInterceptor * list Effect) : A := r.1.1.
Definition after {A} (r : A * TransferHttpCacheInterceptor * list Effect)
  : TransferHttpCacheInterceptor := r.1.2.
Definition effects {A} (r : A * TransferHttpCacheInterceptor * list Effect)
  : list Effect := r.2.

(** [this.isCacheActive], [this.isCacheActive = b], [this.whitelist] *)
Definition get_isCacheActive : M bool := fun this => (isCacheActive this, this, []).
Definition set_isCacheActive (b : bool) : M unit :=
  fun this => (tt, mkInterceptor b (transferState this) (whitelist this), []).
Definition get_whitelist : M (option (list TransferHttpWhitelist)) :=
  fun this => (whitelist this, this, []).

(** The four operations of [this.transferState]. *)
Definition transferState_hasKey (key : string) : M bool :=
  fun this => (bool_decide (is_Some (transferState this !! key)), this, [StoreHasKey key]).
Definition transferState_get (key : string) (defaultValue : TransferHttpResponse)
  : M TransferHttpResponse :=
  fun this => (default defaultValue (transferState this !! key), this, [StoreGet key]).
Definition transferState_set (key : string) (value : TransferHttpResponse) : M unit :=
  fun this =>
    (tt, mkInterceptor (isCacheActive this) (<[key := value]> (transferState this))
           (whitelist this),
     [StoreSet key value]).
Definition transferState_remove (key : string) : M unit :=
  fun this =>
    (tt, mkInterceptor (isCacheActive this) (delete key (transferState this))
           (whitelist this),
     [StoreRemove key]).

(** [next.handle(req)] *)
Definition handle (next : HttpHandler) (req : HttpRequest) : M (Observable HttpEvent) :=
  fun this => (next req, this, [Handle req]).

(** [array.forEach(f)] for an effectful [f]. *)
Fixpoint forEach {A} (f : A -> M unit) (l : list A) : M unit :=
  match l with
  | [] => ret tt
  | x :: l' => exec f x; forEach f l'
  end.

(* ------------------------------------------------------------------ *)
(** ** The interceptor *)

(** [getHeadersMap]: [headersMap[key] = headers.getAll(key)!] for each key of
    [headers.keys()].  The [!] asserts the value is there; [getAll_keys] below
    shows it is, for every key the loop visits. *)
Definition getHeadersMap (headers : HttpHeaders) : HeadersMap :=
  foldl (fun headersMap key => <[key := default [] (getAll headers key)]> headersMap)
        ∅ (keys headers).

(** [invalidateCacheEntry] *)
Definition invalidateCacheEntry (url : string) : M unit :=
  forEach (fun method => transferState_remove (method +:+ "." +:+ url)) ["G"; "H"; "P"].

(** The constructor: the flag starts [true]. *)
Definition constructor (transferState : TransferState)
    (whitelist : option (list TransferHttpWhitelist)) : TransferHttpCacheInterceptor :=
  mkInterceptor true transferState whitelist.

(** The constructor's subscription, [appRef.isStable.pipe(filter(s => s),
    take(1))...then(() => this.isCacheActive = false)], at one value of
    [isStable]: [false] is filtered out, [true] clears the flag.  [take(1)]
    ends the subscription at the first [true]; see [isStable_emits_again]. *)
Definition isStable_emits (isStable : bool) : M unit :=
  if isStable then set_isCacheActive false else ret tt.

(** [isMutating] *)
Definition isMutating (req : HttpRequest) : bool :=
  negb (String.eqb (method req) "GET") && negb (String.eqb (method req) "HEAD").

(** [isAllowed] *)
Definition isAllowed (req : HttpRequest) : M bool :=
  do whitelist <- get_whitelist;
  match whitelist with
  | Some whitelist => ret (existsb (fun w => String.prefix (w_url w) (url req)) whitelist)
  | None => ret false
  end.

(** [getKey] *)
Definition getKey (req : HttpRequest) : string :=
  substring 0 1 (method req) +:+ "." +:+ url req.

(** The object written by the [tap] callback for an [HttpResponse] event. *)
Definition snapshot (event : HttpResponse) : TransferHttpResponse :=
  {| body := resp_body event;
     headers := Some (getHeadersMap (resp_headers event));
     status := resp_status event;
     statusText := resp_statusText event;
     t_url := resp_url event |}.

(** The response built from a stored snapshot on a hit. *)
Definition synthesize (response : TransferHttpResponse) : HttpResponse :=
  {| resp_body := body response;
     resp_headers := new_HttpHeaders (headers response);
     resp_status := status response;
     resp_statusText := statusText response;
     resp_url := t_url response |}.

(** What [intercept] returns: one of the three observables it builds.  The
    [tap] of the third runs when the stream is subscribed to, not when
    [intercept] returns. *)
Inductive Returned : Type :=
| Forwarded (httpEvent : Observable HttpEvent)
| Synthesized (response : HttpResponse)
| Tapped (httpEvent : Observable HttpEvent) (storeKey : string).

(** [intercept] *)
Definition intercept (req : HttpRequest) (next : HttpHandler) : M Returned :=
  let isMutating := isMutating req in
  do isAllowed <- isAllowed req;
  exec (if isMutating || negb isAllowed
      then exec set_isCacheActive false; invalidateCacheEntry (url req)
      else ret tt);
  do active <- get_isCacheActive;
  if negb active then
    do httpEvent <- handle next req;
    ret (Forwarded httpEvent)
  else
    let key := getKey req in
    let storeKey := key in
    do hasKey <- transferState_hasKey storeKey;
    if hasKey then
      do response <- transferState_get storeKey empty_TransferHttpResponse;
      ret (Synthesized (synthesize response))
    else
      do httpEvent <- handle next req;
      ret (Tapped httpEvent storeKey).

(** The [tap] callback of [intercept]. *)
Definition tap_callback (storeKey : string) (event : HttpEvent) : M unit :=
  match event with
  | HttpResponseEvent event => transferState_set storeKey (snapshot event)
  | _ => ret tt
  end.

(** [source.pipe(tap(f))], subscribed: [f] runs at each value, which is then
    passed on; completion and errors are passed on. *)
Fixpoint tap (f : HttpEvent -> M unit) (source : Observable HttpEvent)
  : M (Observable HttpEvent) :=
  match source with
  | Next event rest =>
      exec f event;
      do rest' <- tap f rest;
      ret (Next event rest')
  | Complete => ret Complete
  | Error err => ret (Error err)
  end.

(** Subscribing to the observable [intercept] returned: what the caller
    receives. *)
Definition subscribe (r : Returned) : M (Observable HttpEvent) :=
  match r with
  | Forwarded httpEvent => ret httpEvent
  | Synthesized response => ret (observableOf (HttpResponseEvent response))
  | Tapped httpEvent storeKey => tap (tap_callback storeKey) httpEvent
  end.

(** A request made through the interceptor and consumed to its end. *)
Definition request (req : HttpRequest) (next : HttpHandler) : M (Observable HttpEvent) :=
  do r <- intercept req next;
  subscribe r.

(* ------------------------------------------------------------------ *)
(** ** Observations on streams and logs *)

Fixpoint ending {T} (o : Observable T) : option string :=
  match o with
  | Next _ rest => ending rest
  | Complete => None
  | Error err => Some err
  end.

(** The [HttpResponse] events of a stream, in order. *)
Fixpoint responses (o : Observable HttpEvent) : list HttpResponse :=
  match o with
  | Next (HttpResponseEvent r) rest => r :: responses rest
  | Next _ rest => responses rest
  | _ => []
  end.

Definition isStoreEffect (e : Effect) : bool :=
  match e with Handle _ => false | _ => true end.
Definition isHandle (e : Effect) : bool :=
  match e with Handle _ => true | _ => false end.
Definition isStoreSet (e : Effect) : bool :=
  match e with StoreSet _ _ => true | _ => false end.

(** The keys written by a log. *)
Fixpoint writtenKeys (log : list Effect) : list string :=
  match log with
  | [] => []
  | StoreSet key _ :: log' => key :: writtenKeys log'
  | _ :: log' => writtenKeys log'
  end.

(** An instance driven from outside: requests, streams subscribed to later,
    and values of the stability signal. *)
Inductive Action : Type :=
| DoIntercept (req : HttpRequest) (next : HttpHandler)
| DoSubscribe (r : Returned)
| DoStable (isStable : bool).

Definition step (a : Action) : M unit :=
  match a with
  | DoIntercept req next => exec intercept req next; ret tt
  | DoSubscribe r => exec subscribe r; ret tt
  | DoStable isStable => isStable_emits isStable
  end.

(** The states an instance goes through under a list of actions, the first
    one included. *)
Fixpoint history (this : TransferHttpCacheInterceptor) (actions : list Action)
  : list TransferHttpCacheInterceptor :=
  match actions with
  | [] => [this]
  | a :: actions' => this :: history (after (step a this)) actions'
  end.

(* ------------------------------------------------------------------ *)
(** ** Auxiliary definitions for the statements *)

(** [isAllowed] only reads the instance. *)
Definition allowedBy (whitelist : option (list TransferHttpWhitelist)) (req : HttpRequest)
  : bool :=
  match whitelist with
  | Some whitelist => existsb (fun w => String.prefix (w_url w) (url req)) whitelist
  | None => false
  end.

Definition invalidated (url : string) (store : TransferState) : TransferState :=
  delete ("P." +:+ url) (delete ("H." +:+ url) (delete ("G." +:+ url) store)).

Definition disqualified (this : TransferHttpCacheInterceptor) (req : HttpRequest) : bool :=
  isMutating req || negb (allowedBy (whitelist this) req).

(** Which of the four paths a call takes. *)
Inductive Path (req : HttpRequest) (next : HttpHandler)
    (this : TransferHttpCacheInterceptor)
  : Returned * TransferHttpCacheInterceptor * list Effect -> Prop :=
| path_disqualified :
    disqualified this req = true ->
    Path req next this
      (Forwarded (next req),
       mkInterceptor false (invalidated (url req) (transferState this)) (whitelist this),
       [StoreRemove ("G." +:+ url req); StoreRemove ("H." +:+ url req);
        StoreRemove ("P." +:+ url req); Handle req])
| path_inactive :
    disqualified this req = false -> isCacheActive this = false ->
    Path req next this (Forwarded (next req), this, [Handle req])
| path_hit response :
    disqualified this req = false -> isCacheActive this = true ->
    transferState this !! getKey req = Some response ->
    Path req next this
      (Synthesized (synthesize response), this,
       [StoreHasKey (getKey req); StoreGet (getKey req)])
| path_miss :
    disqualified this req = false -> isCacheActive this = true ->
    transferState this !! getKey req = None ->
    Path req next this
      (Tapped (next req) (getKey req), this, [StoreHasKey (getKey req); Handle req]).

(** The store after the writes of the [tap] callback for the given responses. *)
Definition recorded (storeKey : string) (rs : list HttpResponse) (store : TransferState)
  : TransferState :=
  foldl (fun store r => <[storeKey := snapshot r]> store) store rs.

(** Requests made one after the other, each consumed before the next. *)
Fixpoint request_all (calls : list (HttpRequest * HttpHandler)) : M unit :=
  match calls with
  | [] => ret tt
  | (req, next) :: calls' => exec request req next; request_all calls'
  end.

(* ------------------------------------------------------------------ *)
(** ** Concrete instances *)

Definition sample_headers : HttpHeaders :=
  mkHttpHeaders (<["X" := ["a"; "b"]]> (<["Content-Type" := ["application/json"]]> ∅)).

Definition sample_response : HttpResponse :=
  mkHttpResponse (Some (a_string "items")) sample_headers (Some 200%Z) (Some "OK")
    (Some "/api/x").

Definition later_response : HttpResponse :=
  mkHttpResponse (Some (a_string "more")) sample_headers (Some 200%Z) (Some "OK")
    (Some "/api/x").

Definition sample_next : HttpHandler :=
  fun _ => Next HttpSentEvent (Next (HttpResponseEvent sample_response) Complete).

Definition twice_next : HttpHandler :=
  fun _ => Next (HttpResponseEvent sample_response)
             (Next (HttpResponseEvent later_response) Complete).

Definition failing_next : HttpHandler :=
  fun _ => Next HttpSentEvent (Error "network").

Definition sample_whitelist : option (list TransferHttpWhitelist) :=
  Some [mkTransferHttpWhitelist "/api"].

Definition fresh : TransferHttpCacheInterceptor := constructor ∅ sample_whitelist.

Definition get_x : HttpRequest := mkHttpRequest "GET" "/api/x".
Definition post_x : HttpRequest := mkHttpRequest "POST" "/api/x".
Definition head_x : HttpRequest := mkHttpRequest "HEAD" "/api/x".

(** An instance that has cached the response to [get_x]. *)
Definition warmed : TransferHttpCacheInterceptor := after (request get_x sample_next fresh).

(* ------------------------------------------------------------------ *)
(** ** The four paths of [intercept] *)

Lemma isAllowed_eq req this :
  isAllowed req this = (allowedBy (whitelist this) req, this, []).
Proof. unfold isAllowed, bind, get_whitelist, allowedBy. by destruct (whitelist this). Qed.

Lemma invalidateCacheEntry_eq url this :
  invalidateCacheEntry url this =
    (tt, mkInterceptor (isCacheActive this) (invalidated url (transferState this))
           (whitelist this),
     [StoreRemove ("G." +:+ url); StoreRemove ("H." +:+ url); StoreRemove ("P." +:+ url)]).
Proof. reflexivity. Qed.

Lemma intercept_disqualified req next this :
  disqualified this req = true ->
  intercept req next this =
    (Forwarded (next req),
     mkInterceptor false (invalidated (url req) (transferState this)) (whitelist this),
     [StoreRemove ("G." +:+ url req); StoreRemove ("H." +:+ url req);
      StoreRemove ("P." +:+ url req); Handle req]).
Proof.
  unfold disqualified, intercept, bind. intros Hd.
  rewrite isAllowed_eq, Hd. reflexivity.
Qed.

Lemma intercept_inactive req next this :
  disqualified this req = false ->
  isCacheActive this = false ->
  intercept req next this = (Forwarded (next req), this, [Handle req]).
Proof.
  unfold disqualified, intercept, bind. intros Hd Ha.
  rewrite isAllowed_eq, Hd. cbn. rewrite Ha. reflexivity.
Qed.

Lemma intercept_hit req next this response :
  disqualified this req = false ->
  isCacheActive this = true ->
  transferState this !! getKey req = Some response ->
  intercept req next this =
    (Synthesized (synthesize response), this,
     [StoreHasKey (getKey req); StoreGet (getKey req)]).
Proof.
  unfold disqualified, intercept, bind. intros Hd Ha Hk.
  rewrite isAllowed_eq, Hd. cbn. rewrite Ha. cbn.
  rewrite bool_decide_eq_true_2 by (rewrite Hk; eauto). cbn. by rewrite Hk.
Qed.

Lemma intercept_miss req next this :
  disqualified this req = false ->
  isCacheActive this = true ->
  transferState this !! getKey req = None ->
  intercept req next this =
    (Tapped (next req) (getKey req), this, [StoreHasKey (getKey req); Handle req]).
Proof.
  unfold disqualified, intercept, bind. intros Hd Ha Hk.
  rewrite isAllowed_eq, Hd. cbn. rewrite Ha. cbn.
  rewrite bool_decide_eq_false_2 by (rewrite Hk; intros [? ?]; discriminate).
  reflexivity.
Qed.

Lemma intercept_path req next this : Path req next this (intercept req next this).
Proof.
  destruct (disqualified this req) eqn:Hd.
  - rewrite intercept_disqualified by done. by constructor.
  - destruct (isCacheActive this) eqn:Ha.
    + destruct (transferState this !! getKey req) as [response|] eqn:Hk.
      * rewrite (intercept_hit _ _ _ response) by done. by constructor.
      * rewrite intercept_miss by done. by constructor.
    + rewrite intercept_inactive by done. by constructor.
Qed.

(* ------------------------------------------------------------------ *)
(** ** The tapped stream *)

Lemma tap_eq storeKey source this :
  tap (tap_callback storeKey) source this =
    (source,
     mkInterceptor (isCacheActive this)
       (recorded storeKey (responses source) (transferState this)) (whitelist this),
     map (fun r => StoreSet storeKey (snapshot r)) (responses source)).
Proof.
  revert this. induction source as [event rest IH| |err]; intros this.
  - cbn [tap]. unfold bind.
    destruct event; cbn; rewrite IH; cbn; by rewrite app_nil_r.
  - by destruct this.
  - by destruct this.
Qed.

Lemma recorded_last storeKey rs store :
  recorded storeKey rs store =
    match last rs with
    | Some r => <[storeKey := snapshot r]> store
    | None => store
    end.
Proof.
  induction rs as [|r rs IH] using rev_ind; [done|].
  unfold recorded in *. rewrite foldl_app, last_snoc. cbn [foldl]. rewrite IH.
  destruct (last rs); [by rewrite insert_insert_eq | done].
Qed.

Lemma writtenKeys_app log1 log2 :
  writtenKeys (log1 ++ log2) = writtenKeys log1 ++ writtenKeys log2.
Proof.
  induction log1 as [|e log1 IH]; [done|]. destruct e; cbn; by rewrite ?IH.
Qed.

Lemma writtenKeys_tap storeKey (rs : list HttpResponse) :
  writtenKeys (map (fun r => StoreSet storeKey (snapshot r)) rs) =
    replicate (length rs) storeKey.
Proof. induction rs as [|r rs IH]; [done|]. cbn. by rewrite IH. Qed.

(* ------------------------------------------------------------------ *)
(** ** Header capture *)

Lemma getAll_keys headers key :
  key ∈ keys headers <-> is_Some (getAll headers key).
Proof.
  unfold keys, getAll. rewrite list_elem_of_fmap. split.
  - intros [[k v] [-> Hin]]. apply elem_of_map_to_list in Hin. eauto.
  - intros [v Hv]. exists (key, v). split; [done|]. by apply elem_of_map_to_list.
Qed.

Lemma lookup_fold_headers (values : string -> list string) (l : list string)
    (acc : HeadersMap) (key : string) :
  foldl (fun headersMap k => <[k := values k]> headersMap) acc l !! key =
    if decide (key ∈ l) then Some (values key) else acc !! key.
Proof.
  revert acc. induction l as [|k l IH]; intros acc; cbn [foldl].
  - rewrite decide_False; [done | apply not_elem_of_nil].
  - rewrite IH. destruct (decide (key ∈ l)) as [Hin|Hnin].
    + rewrite decide_True; [done | by apply elem_of_cons; right].
    + destruct (decide (key = k)) as [->|Hne].
      * rewrite decide_True by apply list_elem_of_here. apply lookup_insert_eq.
      * rewrite decide_False by (rewrite elem_of_cons; tauto).
        by apply lookup_insert_ne.
Qed.

(** The captured map holds, per header name, the complete list of values. *)
Lemma getHeadersMap_lookup headers name :
  getHeadersMap headers !! name = getAll headers name.
Proof.
  unfold getHeadersMap.
  rewrite (lookup_fold_headers (fun k => default [] (getAll headers k))).
  destruct (decide (name ∈ keys headers)) as [Hin|Hnin].
  - apply getAll_keys in Hin as [v Hv]. by rewrite Hv.
  - rewrite lookup_empty. destruct (getAll headers name) eqn:Hg; [|done].
    exfalso. apply Hnin, getAll_keys. eauto.
Qed.

Lemma new_HttpHeaders_getHeadersMap headers :
  new_HttpHeaders (Some (getHeadersMap headers)) = headers.
Proof.
  destruct headers as [m]. unfold new_HttpHeaders. cbn [default]. f_equal.
  apply map_eq. intros name. apply (getHeadersMap_lookup (mkHttpHeaders m)).
Qed.

Lemma synthesize_snapshot event : synthesize (snapshot event) = event.
Proof.
  destruct event. unfold synthesize, snapshot. cbn.
  by rewrite new_HttpHeaders_getHeadersMap.
Qed.

(* ------------------------------------------------------------------ *)
(** ** The flag only goes down *)

Lemma step_flag a this :
  isCacheActive this = false -> isCacheActive (after (step a this)) = false.
Proof.
  intros Ha. destruct a as [req next|r|isStable]; unfold step.
  - unfold bind. destruct (intercept_path req next this); cbn; done.
  - unfold bind. destruct r; cbn; try done.
    rewrite tap_eq. cbn. done.
  - by destruct isStable.
Qed.

Lemma history_flag actions : forall this s,
  isCacheActive this = false -> s ∈ history this actions -> isCacheActive s = false.
Proof.
  induction actions as [|a actions IH]; intros this s Ha Hs; cbn in Hs.
  - apply list_elem_of_singleton in Hs. by subst.
  - apply elem_of_cons in Hs as [->|Hs]; [done|].
    eapply IH; [|exact Hs]. by apply step_flag.
Qed.

Lemma history_drop actions : forall this i s,
  history this actions !! i = Some s ->
  drop i (history this actions) = history s (drop i actions).
Proof.
  induction actions as [|a actions IH]; intros this i s Hi.
  - destruct i; cbn in *; [by inversion Hi|]. by destruct i.
  - destruct i; cbn in *; [by inversion Hi|]. by apply IH.
Qed.

(** The subscription is over after the first [true]: a later value of the
    signal would change nothing. *)
Lemma isStable_emits_again b this :
  after (isStable_emits b (after (isStable_emits true this))) =
  after (isStable_emits true this).
Proof. by destruct b. Qed.

(* ------------------------------------------------------------------ *)
(** ** A whole request *)

Lemma request_eq req next this :
  request req next this =
    (result (subscribe (result (intercept req next this)) (after (intercept req next this))),
     after (subscribe (result (intercept req next this)) (after (intercept req next this))),
     effects (intercept req next this) ++
     effects (subscribe (result (intercept req next this)) (after (intercept req next this)))).
Proof.
  unfold request, bind, result, after, effects.
  destruct (intercept req next this) as [[r this1] log1]. cbn.
  by destruct (subscribe r this1) as [[o this2] log2].
Qed.

Lemma request_disqualified req next this :
  disqualified this req = true ->
  request req next this =
    (next req,
     mkInterceptor false (invalidated (url req) (transferState this)) (whitelist this),
     [StoreRemove ("G." +:+ url req); StoreRemove ("H." +:+ url req);
      StoreRemove ("P." +:+ url req); Handle req]).
Proof. intros Hd. unfold request, bind. by rewrite intercept_disqualified. Qed.

Lemma request_inactive req next this :
  disqualified this req = false ->
  isCacheActive this = false ->
  request req next this = (next req, this, [Handle req]).
Proof. intros Hd Ha. unfold request, bind. by rewrite intercept_inactive. Qed.

Lemma request_hit req next this response :
  disqualified this req = false ->
  isCacheActive this = true ->
  transferState this !! getKey req = Some response ->
  request req next this =
    (observableOf (HttpResponseEvent (synthesize response)), this,
     [StoreHasKey (getKey req); StoreGet (getKey req)]).
Proof.
  intros Hd Ha Hk. unfold request, bind. by rewrite (intercept_hit _ _ _ response).
Qed.

Lemma request_miss req next this :
  disqualified this req = false ->
  isCacheActive this = true ->
  transferState this !! getKey req = None ->
  request req next this =
    (next req,
     mkInterceptor (isCacheActive this)
       (recorded (getKey req) (responses (next req)) (transferState this))
       (whitelist this),
     [StoreHasKey (getKey req); Handle req] ++
     map (fun r => StoreSet (getKey req) (snapshot r)) (responses (next req))).
Proof.
  intros Hd Ha Hk. unfold request, bind. rewrite intercept_miss by done.
  cbn [subscribe]. by rewrite tap_eq.
Qed.

Lemma not_disqualified this req :
  isMutating req = false -> result (isAllowed req this) = true ->
  disqualified this req = false.
Proof.
  rewrite isAllowed_eq. unfold disqualified, result. cbn. by intros -> ->.
Qed.

Lemma is_disqualified this req :
  isMutating req = true \/ result (isAllowed req this) = false ->
  disqualified this req = true.
Proof.
  rewrite isAllowed_eq. unfold disqualified, result. cbn.
  intros [-> | ->]; [done | by rewrite orb_true_r].
Qed.

Lemma prefix_app (p s : string) : String.prefix p (p +:+ s) = true.
Proof.
  induction p as [|a p IH]; [by destruct s|].
  change (String a p +:+ s) with (String a (p +:+ s)). cbn [String.prefix].
  destruct (ascii_dec a a); [exact IH | congruence].
Qed.

(** The key of a read-only request. *)
Lemma getKey_read_only req :
  isMutating req = false ->
  getKey req = "G." +:+ url req \/ getKey req = "H." +:+ url req.
Proof.
  unfold isMutating, getKey. destruct req as [m u]. cbn [method url].
  destruct (String.eqb m "GET") eqn:Hg.
  - apply String.eqb_eq in Hg as ->. by left.
  - destruct (String.eqb m "HEAD") eqn:Hh; [|done].
    apply String.eqb_eq in Hh as ->. by right.
Qed.

(* ------------------------------------------------------------------ *)
(** ** The properties *)

(** C6. The cache key is the first character of the request's method, then
    ".", then the whole URL (for a method with no character: ".", then the
    URL).  A GET to "/api/x" has key "G./api/x", a HEAD to it has the key
    "H./api/x", and the keys of a GET and a HEAD to one URL always differ. *)
Theorem getKey_first_character :
  (forall (c : ascii) (rest u : string),
     getKey (mkHttpRequest (String c rest) u) = String c ("." +:+ u)) /\
  (forall u : string, getKey (mkHttpRequest "" u) = "." +:+ u) /\
  getKey (mkHttpRequest "GET" "/api/x") = "G./api/x" /\
  getKey (mkHttpRequest "HEAD" "/api/x") = "H./api/x" /\
  (forall u : string, getKey (mkHttpRequest "GET" u) <> getKey (mkHttpRequest "HEAD" u)).
Proof.
  repeat split; try reflexivity.
  - intros c rest u. unfold getKey. cbn. by destruct rest.
  - intros u. unfold getKey. cbn. discriminate.
Qed.

(** C7. With the allow-list unset or empty, every request, whatever its method
    and URL, is not allowed and is disqualified: the call clears the flag,
    removes the three keys of the URL, forwards the request, synthesizes
    nothing and writes nothing. *)
Theorem no_whitelist_disqualifies (this : TransferHttpCacheInterceptor)
    (req : HttpRequest) (next : HttpHandler) :
  whitelist this = None \/ whitelist this = Some [] ->
  result (isAllowed req this) = false /\
  result (intercept req next this) = Forwarded (next req) /\
  isCacheActive (after (intercept req next this)) = false /\
  effects (request req next this) =
    [StoreRemove ("G." +:+ url req); StoreRemove ("H." +:+ url req);
     StoreRemove ("P." +:+ url req); Handle req] /\
  result (request req next this) = next req.
Proof.
  intros Hw.
  assert (Hna : result (isAllowed req this) = false).
  { rewrite isAllowed_eq. unfold result. cbn. by destruct Hw as [-> | ->]. }
  assert (Hd : disqualified this req = true) by (apply is_disqualified; by right).
  rewrite intercept_disqualified, request_disqualified by done. done.
Qed.

Lemma no_whitelist_disqualifies_witness :
  (whitelist (constructor ∅ None) = None \/ whitelist (constructor ∅ None) = Some []) /\
  result (isAllowed get_x (constructor ∅ None)) = false /\
  isCacheActive (after (intercept get_x sample_next (constructor ∅ None))) = false.
Proof.
  split; [left; reflexivity|].
  destruct (no_whitelist_disqualifies (constructor ∅ None) get_x sample_next)
    as (H1 & _ & H3 & _); [left; reflexivity|].
  split; [exact H1 | exact H3].
Defined.

(** C3. An [intercept] call whose request is mutating or not allowed, whatever
    the flag was, clears the flag and removes "G."+url, "H."+url and "P."+url
    from the store, whether present or not, leaving every other key as it
    was; the call itself goes on to forward the request. *)
Theorem disqualification (this : TransferHttpCacheInterceptor)
    (req : HttpRequest) (next : HttpHandler) :
  isMutating req = true \/ result (isAllowed req this) = false ->
  isCacheActive (after (intercept req next this)) = false /\
  transferState (after (intercept req next this)) =
    delete ("P." +:+ url req)
      (delete ("H." +:+ url req) (delete ("G." +:+ url req) (transferState this))) /\
  transferState (after (intercept req next this)) !! ("G." +:+ url req) = None /\
  transferState (after (intercept req next this)) !! ("H." +:+ url req) = None /\
  transferState (after (intercept req next this)) !! ("P." +:+ url req) = None /\
  (forall key : string,
     key <> "G." +:+ url req -> key <> "H." +:+ url req -> key <> "P." +:+ url req ->
     transferState (after (intercept req next this)) !! key = transferState this !! key) /\
  effects (intercept req next this) =
    [StoreRemove ("G." +:+ url req); StoreRemove ("H." +:+ url req);
     StoreRemove ("P." +:+ url req); Handle req] /\
  result (intercept req next this) = Forwarded (next req).
Proof.
  intros Hd. apply is_disqualified in Hd.
  rewrite intercept_disqualified by done. unfold after, effects, result; cbn.
  unfold invalidated. repeat split.
  - rewrite lookup_delete_ne by discriminate.
    rewrite lookup_delete_ne by discriminate. apply lookup_delete_eq.
  - rewrite lookup_delete_ne by discriminate. apply lookup_delete_eq.
  - apply lookup_delete_eq.
  - intros key HG HH HP. by rewrite !lookup_delete_ne.
Qed.

Lemma disqualification_witness :
  (isMutating post_x = true \/ result (isAllowed post_x warmed) = false) /\
  isCacheActive (after (intercept post_x sample_next warmed)) = false /\
  transferState (after (intercept post_x sample_next warmed)) !! "G./api/x" = None.
Proof.
  split; [left; reflexivity|].
  destruct (disqualification warmed post_x sample_next) as (H1 & _ & H3 & _);
    [left; reflexivity|].
  split; [exact H1 | exact H3].
Defined.

(** C9. A hit changes nothing: with the flag true, a read-only allowed request
    and an entry under its key, the instance after the call (flag, every key
    of the store, allow-list) is the instance before it, also once the
    returned stream has been consumed; the store is only read. *)
Theorem cache_hit_frame (this : TransferHttpCacheInterceptor)
    (req : HttpRequest) (next : HttpHandler) :
  isCacheActive this = true ->
  isMutating req = false ->
  result (isAllowed req this) = true ->
  is_Some (transferState this !! getKey req) ->
  after (intercept req next this) = this /\
  after (request req next this) = this /\
  effects (request req next this) = [StoreHasKey (getKey req); StoreGet (getKey req)].
Proof.
  intros Ha Hm Hal [response Hk].
  pose proof (not_disqualified this req Hm Hal) as Hd.
  rewrite (intercept_hit _ _ _ response), (request_hit _ _ _ response) by done.
  done.
Qed.

Lemma cache_hit_frame_witness :
  isCacheActive warmed = true /\
  isMutating get_x = false /\
  result (isAllowed get_x warmed) = true /\
  is_Some (transferState warmed !! getKey get_x) /\
  after (request get_x failing_next warmed) = warmed.
Proof.
  assert (Hs : is_Some (transferState warmed !! getKey get_x)).
  { exists (snapshot sample_response). vm_compute. reflexivity. }
  split; [reflexivity|]. split; [reflexivity|]. split; [reflexivity|].
  split; [exact Hs|].
  apply (cache_hit_frame warmed get_x failing_next); [reflexivity..|exact Hs].
Defined.

(** C1. Round trip.  A read-only, allowed request made while the flag is true
    and no entry is under its key, whose forwarded stream carries a response
    (the last one being [event]): the first request leaves the snapshot of
    [event] under the key and the flag true; a second [intercept] of the same
    request, whatever handler it is given, returns one synthesized response
    whose body, headers, status, statusText and url are the fields of the
    recorded snapshot, every header having all its values in order, and does
    not call the handler. *)
Theorem round_trip (this : TransferHttpCacheInterceptor) (req : HttpRequest)
    (next next' : HttpHandler) (event : HttpResponse) :
  isCacheActive this = true ->
  isMutating req = false ->
  result (isAllowed req this) = true ->
  transferState this !! getKey req = None ->
  last (responses (next req)) = Some event ->
  exists (recorded_snapshot : TransferHttpResponse) (replayed : HttpResponse),
    transferState (after (request req next this)) !! getKey req = Some recorded_snapshot /\
    recorded_snapshot = snapshot event /\
    isCacheActive (after (request req next this)) = true /\
    result (intercept req next' (after (request req next this))) = Synthesized replayed /\
    result (request req next' (after (request req next this))) =
      observableOf (HttpResponseEvent replayed) /\
    resp_body replayed = body recorded_snapshot /\
    Some (header_values (resp_headers replayed)) = headers recorded_snapshot /\
    resp_status replayed = status recorded_snapshot /\
    resp_statusText replayed = statusText recorded_snapshot /\
    resp_url replayed = t_url recorded_snapshot /\
    (forall name : string,
       getAll (resp_headers replayed) name = getAll (resp_headers event) name) /\
    replayed = event /\
    filter (fun e => isHandle e = true) (effects (request req next' (after (request req next this)))) = [].
Proof.
  intros Ha Hm Hal Hk Hlast.
  pose proof (not_disqualified this req Hm Hal) as Hd.
  exists (snapshot event), (synthesize (snapshot event)).
  rewrite request_miss by done. unfold after at 1 2 3 4 5; cbn [fst snd].
  rewrite recorded_last, Hlast.
  set (this1 := mkInterceptor _ _ _).
  assert (Hk1 : transferState this1 !! getKey req = Some (snapshot event))
    by apply lookup_insert_eq.
  assert (Hd1 : disqualified this1 req = false) by exact Hd.
  rewrite (intercept_hit _ _ this1 (snapshot event)),
    (request_hit _ _ this1 (snapshot event)) by done.
  unfold result, effects; cbn [fst snd].
  rewrite synthesize_snapshot.
  repeat split; try done.
  destruct event as [b [h] s st u]. cbn. f_equal. apply map_eq. intros name.
  symmetry. apply (getHeadersMap_lookup (mkHttpHeaders h)).
Qed.

Lemma round_trip_witness :
  isCacheActive fresh = true /\
  isMutating get_x = false /\
  result (isAllowed get_x fresh) = true /\
  transferState fresh !! getKey get_x = None /\
  last (responses (sample_next get_x)) = Some sample_response /\
  exists replayed : HttpResponse,
    result (request get_x failing_next (after (request get_x sample_next fresh))) =
      observableOf (HttpResponseEvent replayed) /\
    getAll (resp_headers replayed) "X" = Some ["a"; "b"].
Proof.
  do 5 (split; [reflexivity|]).
  destruct (round_trip fresh get_x sample_next failing_next sample_response)
    as (snap & replayed & _ & _ & _ & _ & Hres & _ & _ & _ & _ & _ & Hh & _ & _);
    [reflexivity..|].
  exists replayed. split; [exact Hres|]. rewrite Hh. reflexivity.
Defined.

(** C2. The flag of a new instance is true, and along any sequence of
    [intercept] calls, subscriptions and values of the stability signal on
    that instance, a state in which the flag is false is followed only by
    states in which it is false. *)
Theorem flag_monotone (store : TransferState)
    (allowList : option (list TransferHttpWhitelist)) (actions : list Action)
    (i j : nat) (s_i s_j : TransferHttpCacheInterceptor) :
  i <= j ->
  history (constructor store allowList) actions !! i = Some s_i ->
  history (constructor store allowList) actions !! j = Some s_j ->
  isCacheActive s_i = false ->
  history (constructor store allowList) actions !! 0 = Some (constructor store allowList) /\
  isCacheActive (constructor store allowList) = true /\
  isCacheActive s_j = false.
Proof.
  intros Hij Hi Hj Hfalse.
  split; [by destruct actions|]. split; [reflexivity|].
  apply (history_flag (drop i actions) s_i); [done|].
  rewrite <- (history_drop _ _ _ _ Hi).
  apply list_elem_of_lookup. exists (j - i).
  rewrite lookup_drop. by replace (i + (j - i)) with j by lia.
Qed.

Lemma flag_monotone_witness :
  1 <= 3 /\
  history (constructor ∅ sample_whitelist)
    [DoStable true; DoStable false; DoIntercept get_x sample_next] !! 1 =
    Some (mkInterceptor false ∅ sample_whitelist) /\
  history (constructor ∅ sample_whitelist)
    [DoStable true; DoStable false; DoIntercept get_x sample_next] !! 3 =
    Some (mkInterceptor false ∅ sample_whitelist) /\
  isCacheActive (mkInterceptor false ∅ sample_whitelist) = false /\
  isCacheActive (constructor ∅ sample_whitelist) = true /\
  isCacheActive (mkInterceptor false ∅ sample_whitelist) = false.
Proof.
  split; [lia|]. split; [reflexivity|]. split; [reflexivity|]. split; [reflexivity|].
  apply (flag_monotone ∅ sample_whitelist
           [DoStable true; DoStable false; DoIntercept get_x sample_next]
           1 3 (mkInterceptor false ∅ sample_whitelist)
           (mkInterceptor false ∅ sample_whitelist));
    [lia | reflexivity | reflexivity | reflexivity].
Defined.

(** C4, as the code has it.  After the stability signal has fired, at every
    later state of the instance an [intercept] call forwards the request, the
    caller receives the forwarded stream, the handler is called once, and the
    store is neither read nor written.  A read-only allowed request leaves the
    store untouched and the instance as it was; a mutating or not allowed
    request still removes the three keys of its URL. *)
Theorem after_stability (this : TransferHttpCacheInterceptor) (actions : list Action)
    (s : TransferHttpCacheInterceptor) (req : HttpRequest) (next : HttpHandler) :
  s ∈ history (after (isStable_emits true this)) actions ->
  result (intercept req next s) = Forwarded (next req) /\
  result (request req next s) = next req /\
  filter (fun e => isHandle e = true) (effects (request req next s)) = [Handle req] /\
  (forall e : Effect, e ∈ effects (request req next s) ->
     e = Handle req \/ exists key : string, e = StoreRemove key) /\
  (isMutating req = false -> result (isAllowed req s) = true ->
     effects (request req next s) = [Handle req] /\ after (request req next s) = s) /\
  (isMutating req = true \/ result (isAllowed req s) = false ->
     effects (request req next s) =
       [StoreRemove ("G." +:+ url req); StoreRemove ("H." +:+ url req);
        StoreRemove ("P." +:+ url req); Handle req]).
Proof.
  intros Hs.
  assert (Ha : isCacheActive s = false) by (eapply history_flag; [|exact Hs]; done).
  destruct (disqualified s req) eqn:Hd.
  - rewrite intercept_disqualified, request_disqualified by done.
    unfold result, effects, after; cbn [fst snd].
    split; [done|]. split; [done|]. split; [done|]. split; [|split].
    + intros e He. repeat (apply elem_of_cons in He as [->|He]; [eauto|]).
      by apply not_elem_of_nil in He.
    + intros Hm Hal. by rewrite (not_disqualified s req Hm Hal) in Hd.
    + done.
  - rewrite intercept_inactive, request_inactive by done.
    unfold result, effects, after; cbn [fst snd].
    split; [done|]. split; [done|]. split; [done|]. split; [|split].
    + intros e He. apply list_elem_of_singleton in He. by left.
    + done.
    + intros Hdis. apply is_disqualified in Hdis. congruence.
Qed.

Lemma after_stability_witness :
  after (isStable_emits true warmed)
    ∈ history (after (isStable_emits true warmed)) [DoStable false] /\
  effects (request get_x sample_next (after (isStable_emits true warmed))) = [Handle get_x].
Proof.
  assert (Hin : after (isStable_emits true warmed)
                  ∈ history (after (isStable_emits true warmed)) [DoStable false])
    by apply list_elem_of_here.
  split; [exact Hin|].
  destruct (after_stability warmed [DoStable false] (after (isStable_emits true warmed))
              get_x sample_next Hin)
    as (_ & _ & _ & _ & Hread & _).
  apply Hread; reflexivity.
Defined.

(** C4 as stated fails: after stability, a mutating request still removes the
    cached entries of its URL from the store. *)
Lemma after_stability_store_touched :
  ~ (forall (this : TransferHttpCacheInterceptor) (req : HttpRequest) (next : HttpHandler),
       result (request req next (after (isStable_emits true this))) = next req /\
       filter (fun e => isStoreEffect e = true)
         (effects (request req next (after (isStable_emits true this)))) = [] /\
       transferState (after (request req next (after (isStable_emits true this)))) =
         transferState (after (isStable_emits true this))).
Proof.
  intros H. destruct (H warmed post_x sample_next) as (_ & Hlog & _).
  vm_compute in Hlog. discriminate Hlog.
Qed.

(** C5, as the code has it.  On a miss the request is forwarded and the caller
    receives the forwarded stream unchanged; subscribing writes the store once
    per response event of the stream, in order, each time the snapshot of that
    event under the computed key, and at no other event; so a stream with
    exactly one response event causes exactly one write. *)
Theorem miss_records_each_response (this : TransferHttpCacheInterceptor)
    (req : HttpRequest) (next : HttpHandler) :
  isCacheActive this = true ->
  isMutating req = false ->
  result (isAllowed req this) = true ->
  transferState this !! getKey req = None ->
  result (intercept req next this) = Tapped (next req) (getKey req) /\
  filter (fun e => isStoreSet e = true) (effects (intercept req next this)) = [] /\
  result (request req next this) = next req /\
  filter (fun e => isStoreSet e = true) (effects (request req next this)) =
    map (fun r => StoreSet (getKey req) (snapshot r)) (responses (next req)) /\
  (forall event : HttpResponse, responses (next req) = [event] ->
     filter (fun e => isStoreSet e = true) (effects (request req next this)) =
       [StoreSet (getKey req) (snapshot event)] /\
     transferState (after (request req next this)) =
       <[getKey req := snapshot event]> (transferState this)).
Proof.
  intros Ha Hm Hal Hk.
  pose proof (not_disqualified this req Hm Hal) as Hd.
  rewrite intercept_miss, request_miss by done.
  unfold result, effects, after; cbn [fst snd].
  assert (Hf : forall rs : list HttpResponse,
             filter (fun e => isStoreSet e = true)
               (map (fun r => StoreSet (getKey req) (snapshot r)) rs) =
             map (fun r => StoreSet (getKey req) (snapshot r)) rs).
  { induction rs as [|r rs IH]; [done|]. cbn [map].
    rewrite filter_cons_True by done. by rewrite IH. }
  split; [done|]. split; [done|]. split; [done|]. split.
  - cbn [app]. rewrite filter_cons_False by (cbn; discriminate).
    rewrite filter_cons_False by (cbn; discriminate). apply Hf.
  - intros event Hev. rewrite Hev. done.
Qed.

Lemma miss_records_each_response_witness :
  isCacheActive fresh = true /\
  isMutating get_x = false /\
  result (isAllowed get_x fresh) = true /\
  transferState fresh !! getKey get_x = None /\
  result (request get_x sample_next fresh) = sample_next get_x.
Proof.
  do 4 (split; [reflexivity|]).
  destruct (miss_records_each_response fresh get_x sample_next) as (_ & _ & Hres & _);
    [reflexivity..|].
  exact Hres.
Defined.

(** C5 as stated fails: a forwarded stream with two response events causes
    two writes, and the entry left is the snapshot of the later one. *)
Lemma miss_writes_more_than_once :
  ~ (forall (this : TransferHttpCacheInterceptor) (req : HttpRequest) (next : HttpHandler)
            (first : HttpResponse) (others : list HttpResponse),
       isCacheActive this = true ->
       isMutating req = false ->
       result (isAllowed req this) = true ->
       transferState this !! getKey req = None ->
       responses (next req) = first :: others ->
       filter (fun e => isStoreSet e = true) (effects (request req next this)) =
         [StoreSet (getKey req) (snapshot first)]).
Proof.
  intros H.
  specialize (H fresh get_x twice_next sample_response [later_response]
                eq_refl eq_refl eq_refl eq_refl eq_refl).
  vm_compute in H. discriminate H.
Qed.

(** What a subscriber of a forwarded stream receives is that stream. *)
Lemma forwarded_delivered req next this :
  Handle req ∈ effects (intercept req next this) ->
  result (request req next this) = next req.
Proof.
  intros Hf. rewrite request_eq. unfold result at 1; cbn [fst].
  destruct (intercept_path req next this); unfold result, after; cbn [fst snd subscribe].
  - done.
  - done.
  - unfold effects in Hf; cbn in Hf.
    repeat (apply elem_of_cons in Hf as [Hf|Hf]; [discriminate Hf|]).
    by apply not_elem_of_nil in Hf.
  - by rewrite tap_eq.
Qed.

(** C8. Errors pass through.  When the request is forwarded and the forwarded
    stream ends in an error without a response event, the caller receives
    that stream as it is, ending in the same error, and the store is not
    written (subscribing leaves it as [intercept] left it).  Conversely an
    error the caller receives is the error the forwarded stream ended in: the
    interceptor raises none of its own. *)
Theorem error_passes_through (this : TransferHttpCacheInterceptor)
    (req : HttpRequest) (next : HttpHandler) (err : string) :
  (Handle req ∈ effects (intercept req next this) ->
   ending (next req) = Some err ->
   responses (next req) = [] ->
   result (request req next this) = next req /\
   ending (result (request req next this)) = Some err /\
   filter (fun e => isStoreSet e = true) (effects (request req next this)) = [] /\
   transferState (after (request req next this)) =
     transferState (after (intercept req next this))) /\
  (ending (result (request req next this)) = Some err ->
   Handle req ∈ effects (intercept req next this) /\
   ending (next req) = Some err).
Proof.
  split.
  - intros Hf Hend Hnone.
    pose proof (forwarded_delivered req next this Hf) as Hres.
    rewrite Hres. split; [done|]. split; [done|].
    rewrite request_eq. unfold effects at 1, after at 1; cbn [fst snd].
    destruct (intercept_path req next this);
      unfold result, after, effects; cbn [fst snd subscribe]; try done.
    rewrite tap_eq. cbn [fst snd]. rewrite Hnone. done.
  - intros Hend.
    assert (Hf : Handle req ∈ effects (intercept req next this)).
    { rewrite request_eq in Hend. unfold result at 1 in Hend; cbn [fst] in Hend.
      destruct (intercept_path req next this);
        unfold result, after, effects in *; cbn [fst snd subscribe] in *.
      - do 3 apply list_elem_of_further. apply list_elem_of_here.
      - apply list_elem_of_here.
      - discriminate Hend.
      - apply list_elem_of_further, list_elem_of_here. }
    split; [exact Hf|]. by rewrite (forwarded_delivered req next this Hf) in Hend.
Qed.

Lemma error_passes_through_witness :
  Handle get_x ∈ effects (intercept get_x failing_next fresh) /\
  ending (failing_next get_x) = Some "network" /\
  responses (failing_next get_x) = [] /\
  ending (result (request get_x failing_next fresh)) = Some "network" /\
  transferState (after (request get_x failing_next fresh)) = ∅.
Proof.
  assert (Hf : Handle get_x ∈ effects (intercept get_x failing_next fresh))
    by (apply list_elem_of_further, list_elem_of_here).
  split; [exact Hf|]. split; [reflexivity|]. split; [reflexivity|].
  destruct (proj1 (error_passes_through fresh get_x failing_next "network")
              Hf eq_refl eq_refl) as (_ & Hend & _ & Hstore).
  split; [exact Hend|]. rewrite Hstore. reflexivity.
Defined.

(** C10. Every key the interceptor writes begins with "G." or "H.".
    [intercept] itself writes nothing; subscribing to the stream it returned,
    in whatever state the instance is by then, writes only for a read-only
    request, and only under "G."+url or "H."+url, never under "P."+url.  A
    mutating request causes no write. *)
Theorem written_keys_read_only (this this' : TransferHttpCacheInterceptor)
    (req : HttpRequest) (next : HttpHandler) (key : string) :
  (writtenKeys (effects (intercept req next this)) = [] /\
   (isMutating req = true ->
    writtenKeys (effects (request req next this)) = [] /\
    writtenKeys (effects (subscribe (result (intercept req next this)) this')) = [])) /\
  (key ∈ writtenKeys (effects (subscribe (result (intercept req next this)) this')) \/
   key ∈ writtenKeys (effects (request req next this)) ->
   isMutating req = false /\
   (key = "G." +:+ url req \/ key = "H." +:+ url req) /\
   (String.prefix "G." key = true \/ String.prefix "H." key = true) /\
   key <> "P." +:+ url req).
Proof.
  assert (Hi : writtenKeys (effects (intercept req next this)) = [])
    by (destruct (intercept_path req next this); reflexivity).
  assert (Hsub : forall s : TransferHttpCacheInterceptor,
             key ∈ writtenKeys (effects (subscribe (result (intercept req next this)) s)) ->
             disqualified this req = false /\ key = getKey req).
  { intros s. destruct (intercept_path req next this);
      unfold result, effects; cbn [fst snd subscribe writtenKeys];
      try (intros Hin; by apply not_elem_of_nil in Hin).
    rewrite tap_eq. cbn [snd]. rewrite writtenKeys_tap.
    intros Hin. apply elem_of_replicate in Hin as [-> _]. done. }
  assert (Hmut : isMutating req = true ->
             forall s, writtenKeys
               (effects (subscribe (result (intercept req next this)) s)) = []).
  { intros Hm s. rewrite intercept_disqualified by (apply is_disqualified; by left).
    reflexivity. }
  split.
  - split; [exact Hi|]. intros Hm. split; [|by apply Hmut].
    rewrite request_eq. unfold effects at 1; cbn [snd].
    rewrite writtenKeys_app, Hi. by apply Hmut.
  - intros Hin.
    assert (Hboth : disqualified this req = false /\ key = getKey req).
    { destruct Hin as [Hin|Hin]; [by apply (Hsub this')|].
      rewrite request_eq in Hin. unfold effects at 1 in Hin; cbn [snd] in Hin.
      rewrite writtenKeys_app, Hi in Hin. by apply (Hsub _ Hin). }
    destruct Hboth as [Hd ->]. unfold disqualified in Hd.
    apply orb_false_iff in Hd as [Hm _]. split; [exact Hm|].
    destruct (getKey_read_only req Hm) as [-> | ->].
    + split; [by left|]. split; [left; apply prefix_app|]. discriminate.
    + split; [by right|]. split; [right; apply prefix_app|]. discriminate.
Qed.

Lemma written_keys_read_only_witness :
  ("G./api/x" ∈ writtenKeys
     (effects (subscribe (result (intercept get_x sample_next fresh)) warmed)) \/
   "G./api/x" ∈ writtenKeys (effects (request get_x sample_next fresh))) /\
  isMutating get_x = false /\
  String.prefix "G." "G./api/x" = true.
Proof.
  assert (Hin : "G./api/x" ∈ writtenKeys (effects (request get_x sample_next fresh)))
    by apply list_elem_of_here.
  split; [right; exact Hin|].
  destruct (proj2 (written_keys_read_only fresh warmed get_x sample_next "G./api/x")
              (or_intror Hin)) as (Hm & _ & _ & _).
  split; [exact Hm | reflexivity].
Defined.

(* ------------------------------------------------------------------ *)
(** ** Further properties of the code *)

Lemma prefix_iff (p s : string) :
  String.prefix p s = true <-> exists suffix : string, s = p +:+ suffix.
Proof.
  split; [|intros [suffix ->]; apply prefix_app].
  revert s. induction p as [|a p IH]; intros s Hp.
  - by exists s.
  - destruct s as [|b s]; [discriminate Hp|]. cbn [String.prefix] in Hp.
    destruct (ascii_dec a b) as [->|]; [|discriminate Hp].
    destruct (IH s Hp) as [suffix ->]. by exists suffix.
Qed.

Lemma isMutating_false req :
  isMutating req = false -> method req = "GET" \/ method req = "HEAD".
Proof.
  unfold isMutating. destruct (String.eqb (method req) "GET") eqn:Hg.
  - apply String.eqb_eq in Hg. by left.
  - destruct (String.eqb (method req) "HEAD") eqn:Hh; [|done].
    apply String.eqb_eq in Hh. by right.
Qed.

Lemma request_whitelist req next this :
  whitelist (after (request req next this)) = whitelist this.
Proof.
  rewrite request_eq. unfold after at 1; cbn [fst snd].
  destruct (intercept_path req next this);
    unfold result, after; cbn [fst snd subscribe]; try done.
  by rewrite tap_eq.
Qed.

Lemma request_flag req next this :
  isCacheActive (after (request req next this)) =
    isCacheActive this && negb (disqualified this req).
Proof.
  rewrite request_eq. unfold after at 1; cbn [fst snd].
  destruct (intercept_path req next this) as [Hd|Hd Ha|response Hd Ha Hk|Hd Ha Hk];
    unfold result, after; cbn [fst snd subscribe]; rewrite ?tap_eq; cbn [fst snd];
    rewrite Hd, ?Ha; cbn; by rewrite ?andb_false_r.
Qed.

Lemma invalidated_lookup u (store : TransferState) key :
  invalidated u store !! key =
    if decide (key = "G." +:+ u \/ key = "H." +:+ u \/ key = "P." +:+ u)
    then None else store !! key.
Proof.
  unfold invalidated. destruct (decide _) as [Hin|Hout].
  - rewrite !lookup_delete. destruct Hin as [-> | [-> | ->]];
      repeat case_decide; congruence.
  - rewrite !lookup_delete_ne; [done|..]; intros Heq; apply Hout; symmetry in Heq; auto.
Qed.


Lemma allowed_iff (this : TransferHttpCacheInterceptor) (req : HttpRequest) :
  (result (isAllowed req this) = true <->
   exists (entries : list TransferHttpWhitelist) (w : TransferHttpWhitelist)
          (rest : string),
     whitelist this = Some entries /\ w ∈ entries /\ url req = w_url w +:+ rest).
Proof.
  rewrite isAllowed_eq. unfold result; cbn [fst]. unfold allowedBy. destruct (whitelist this) as [entries|]; split.
  - intros He. apply existsb_exists in He as (w & Hin & Hp).
    apply prefix_iff in Hp as [rest Hrest].
    exists entries, w, rest. split; [done|]. split; [by apply list_elem_of_In | done].
  - intros (entries' & w & rest & Heq & Hin & Hurl). inversion Heq; subst entries'.
    apply existsb_exists. exists w. split; [by apply list_elem_of_In|].
    apply prefix_iff. by exists rest.
  - discriminate.
  - intros (entries' & w & rest & Heq & _). discriminate Heq.
Qed.

(** X2. A request is allowed exactly when an allow-list is set and the URL of
    the request is the url of one of its entries followed by some (possibly
    empty) rest; the test reads the instance and changes nothing. *)
Theorem isAllowed_iff_prefix (this : TransferHttpCacheInterceptor) (req : HttpRequest) :
  (result (isAllowed req this) = true <->
   exists (entries : list TransferHttpWhitelist) (w : TransferHttpWhitelist)
          (rest : string),
     whitelist this = Some entries /\ w ∈ entries /\ url req = w_url w +:+ rest) /\
  after (isAllowed req this) = this /\
  effects (isAllowed req this) = [].
Proof.
  split; [apply allowed_iff|]. by rewrite isAllowed_eq.
Qed.

(** X3. Allowing is monotone in the allow-list: a request allowed under one
    list is allowed under every list that contains its entries; and a list
    with an entry whose url is empty allows every request. *)
Theorem isAllowed_monotone (this this' : TransferHttpCacheInterceptor)
    (entries entries' : list TransferHttpWhitelist) (req : HttpRequest) :
  whitelist this = Some entries ->
  whitelist this' = Some entries' ->
  entries ⊆ entries' ->
  (result (isAllowed req this) = true -> result (isAllowed req this') = true) /\
  (mkTransferHttpWhitelist "" ∈ entries -> result (isAllowed req this) = true).
Proof.
  intros Hw Hw' Hsub. split.
  - intros Hal. apply (allowed_iff this req) in Hal
      as (l & w & rest & Heq & Hin & Hurl).
    rewrite Hw in Heq. inversion Heq; subst l.
    apply (allowed_iff this' req).
    exists entries', w, rest. split; [done|]. split; [by apply Hsub | done].
  - intros Hin. apply (allowed_iff this req).
    exists entries, (mkTransferHttpWhitelist ""), (url req). done.
Qed.

Lemma isAllowed_monotone_witness :
  whitelist fresh = Some [mkTransferHttpWhitelist "/api"] /\
  whitelist (constructor ∅ (Some [mkTransferHttpWhitelist ""; mkTransferHttpWhitelist "/api"]))
    = Some [mkTransferHttpWhitelist ""; mkTransferHttpWhitelist "/api"] /\
  [mkTransferHttpWhitelist "/api"]
    ⊆ [mkTransferHttpWhitelist ""; mkTransferHttpWhitelist "/api"] /\
  result (isAllowed get_x
            (constructor ∅ (Some [mkTransferHttpWhitelist ""; mkTransferHttpWhitelist "/api"])))
    = true.
Proof.
  assert (Hsub : [mkTransferHttpWhitelist "/api"]
                   ⊆ [mkTransferHttpWhitelist ""; mkTransferHttpWhitelist "/api"]).
  { intros w Hw. apply list_elem_of_singleton in Hw as ->.
    apply list_elem_of_further, list_elem_of_here. }
  split; [reflexivity|]. split; [reflexivity|]. split; [exact Hsub|].
  apply (proj1 (isAllowed_monotone fresh
                  (constructor ∅ (Some [mkTransferHttpWhitelist ""; mkTransferHttpWhitelist "/api"]))
                  [mkTransferHttpWhitelist "/api"]
                  [mkTransferHttpWhitelist ""; mkTransferHttpWhitelist "/api"]
                  get_x eq_refl eq_refl Hsub)).
  reflexivity.
Defined.

Lemma getKey_inj (req1 req2 : HttpRequest) :
  isMutating req1 = false -> isMutating req2 = false ->
  getKey req1 = getKey req2 -> req1 = req2.
Proof.
  intros H1 H2 Hk.
  apply isMutating_false in H1. apply isMutating_false in H2.
  destruct req1 as [m1 u1], req2 as [m2 u2]. unfold getKey in Hk. cbn in *.
  destruct H1 as [-> | ->], H2 as [-> | ->]; cbv in Hk;
    first [ discriminate Hk | by injection Hk as -> ].
Qed.

(** X4. Among read-only requests the cache key determines the request: two
    requests that are both GET or HEAD and have the same key have the same
    method and the same URL. *)
Theorem getKey_injective_read_only (req1 req2 : HttpRequest) :
  isMutating req1 = false ->
  isMutating req2 = false ->
  getKey req1 = getKey req2 ->
  req1 = req2.
Proof. apply getKey_inj. Qed.

Lemma getKey_injective_read_only_witness :
  isMutating get_x = false /\
  isMutating (mkHttpRequest "GET" "/api/x") = false /\
  getKey get_x = getKey (mkHttpRequest "GET" "/api/x") /\
  get_x = mkHttpRequest "GET" "/api/x".
Proof.
  do 3 (split; [reflexivity|]).
  apply (getKey_injective_read_only get_x (mkHttpRequest "GET" "/api/x"));
    reflexivity.
Defined.

Lemma recorded_lookup_ne storeKey rs (store : TransferState) key :
  key <> storeKey -> recorded storeKey rs store !! key = store !! key.
Proof.
  intros Hne. rewrite recorded_last. destruct (last rs); [|done].
  by apply lookup_insert_ne.
Qed.

(** X5. A request touches the store only under the three keys of its own URL,
    and never changes the allow-list: after a request, consumed to its end,
    every key other than "G."+url, "H."+url and "P."+url holds what it held
    before. *)
Theorem request_frame (this : TransferHttpCacheInterceptor) (req : HttpRequest)
    (next : HttpHandler) (key : string) :
  key <> "G." +:+ url req ->
  key <> "H." +:+ url req ->
  key <> "P." +:+ url req ->
  transferState (after (request req next this)) !! key = transferState this !! key /\
  whitelist (after (request req next this)) = whitelist this.
Proof.
  intros HG HH HP. split; [|apply request_whitelist].
  rewrite request_eq. unfold after at 1; cbn [fst snd].
  destruct (intercept_path req next this) as [Hd|Hd Ha|response Hd Ha Hk|Hd Ha Hk];
    unfold result, after; cbn [fst snd subscribe]; try done.
  - unfold ret; cbn [fst snd transferState]. rewrite invalidated_lookup.
    rewrite decide_False; [done | tauto].
  - rewrite tap_eq. cbn [fst snd transferState]. apply recorded_lookup_ne.
    unfold disqualified in Hd. apply orb_false_iff in Hd as [Hm _].
    destruct (getKey_read_only req Hm) as [-> | ->]; done.
Qed.

Lemma request_frame_witness :
  "G./api/x" <> "G." +:+ url (mkHttpRequest "POST" "/api/y") /\
  "G./api/x" <> "H." +:+ url (mkHttpRequest "POST" "/api/y") /\
  "G./api/x" <> "P." +:+ url (mkHttpRequest "POST" "/api/y") /\
  transferState (after (request (mkHttpRequest "POST" "/api/y") sample_next warmed))
    !! "G./api/x" = transferState warmed !! "G./api/x".
Proof.
  do 3 (split; [discriminate|]).
  apply (request_frame warmed (mkHttpRequest "POST" "/api/y") sample_next "G./api/x");
    discriminate.
Defined.

(** X6. The flag after a request is true exactly when it was true before and
    the request is read-only and allowed: a cacheable request never turns
    caching off, any other request always does, and nothing turns it on. *)
Theorem flag_after_request (this : TransferHttpCacheInterceptor) (req : HttpRequest)
    (next : HttpHandler) :
  isCacheActive (after (request req next this)) =
    isCacheActive this && (negb (isMutating req) && result (isAllowed req this)) /\
  isCacheActive (after (intercept req next this)) =
    isCacheActive (after (request req next this)).
Proof.
  split.
  - rewrite request_flag, isAllowed_eq. unfold disqualified, result; cbn [fst].
    by rewrite negb_orb, negb_involutive.
  - rewrite request_eq. unfold after at 2; cbn [fst snd].
    destruct (intercept_path req next this);
      unfold result, after; cbn [fst snd subscribe]; try done.
    by rewrite tap_eq.
Qed.

Lemma forallb_pointwise {A} (f g : A -> bool) (l : list A) :
  (forall x, f x = g x) -> forallb f l = forallb g l.
Proof. intros Hfg. induction l as [|x l IH]; [done|]. cbn. by rewrite Hfg, IH. Qed.

(** X7. Over a run of requests caching survives exactly when it was on at the
    start and every request of the run is read-only and allowed by the
    allow-list: one mutating or not allowed request anywhere in the run leaves
    the flag false at its end. *)
Theorem flag_after_request_all (calls : list (HttpRequest * HttpHandler))
    (this : TransferHttpCacheInterceptor) :
  isCacheActive (after (request_all calls this)) =
    isCacheActive this &&
    forallb (fun call => negb (isMutating call.1) && result (isAllowed call.1 this)) calls.
Proof.
  revert this. induction calls as [|[req next] calls IH]; intros this.
  - cbn. by rewrite andb_true_r.
  - cbn [request_all forallb fst]. unfold bind.
    assert (Hflag : isCacheActive (after (request req next this)) =
              isCacheActive this &&
              (negb (isMutating req) && result (isAllowed req this))).
    { rewrite request_flag, isAllowed_eq. unfold disqualified, result; cbn [fst].
      by rewrite negb_orb, negb_involutive. }
    pose proof (request_whitelist req next this) as Hw.
    destruct (request req next this) as [[o this1] log1].
    specialize (IH this1).
    destruct (request_all calls this1) as [[u this2] log2].
    unfold after in *; cbn [fst snd] in *.
    rewrite IH, Hflag, <- andb_assoc. f_equal. f_equal.
    apply forallb_pointwise. intros [req' next']. cbn [fst].
    rewrite !isAllowed_eq. unfold result; cbn [fst]. by rewrite Hw.
Qed.

(** X8. A recorded entry serves only its own request.  After a miss for [req]
    has recorded a response, another read-only allowed request (another URL,
    or the other read-only method) that had no entry of its own is still a
    miss: it is forwarded and nothing recorded for [req] is replayed to it. *)
Theorem recorded_entry_serves_only_its_request (this : TransferHttpCacheInterceptor)
    (req req' : HttpRequest) (next next' : HttpHandler) (event : HttpResponse) :
  isCacheActive this = true ->
  isMutating req = false ->
  result (isAllowed req this) = true ->
  transferState this !! getKey req = None ->
  last (responses (next req)) = Some event ->
  isMutating req' = false ->
  result (isAllowed req' this) = true ->
  transferState this !! getKey req' = None ->
  req' <> req ->
  result (intercept req' next' (after (request req next this))) =
    Tapped (next' req') (getKey req') /\
  effects (intercept req' next' (after (request req next this))) =
    [StoreHasKey (getKey req'); Handle req'] /\
  result (request req' next' (after (request req next this))) = next' req'.
Proof.
  intros Ha Hm Hal Hk Hlast Hm' Hal' Hk' Hne.
  pose proof (not_disqualified this req Hm Hal) as Hd.
  pose proof (not_disqualified this req' Hm' Hal') as Hd'.
  rewrite request_miss by done. unfold after; cbn [fst snd].
  set (this1 := mkInterceptor _ _ _).
  assert (Hd1 : disqualified this1 req' = false) by exact Hd'.
  assert (Hk1 : transferState this1 !! getKey req' = None).
  { cbn. rewrite recorded_lookup_ne; [done|].
    intros Heq. apply Hne. by apply getKey_inj. }
  rewrite intercept_miss, request_miss by done. done.
Qed.

Lemma recorded_entry_serves_only_its_request_witness :
  isCacheActive fresh = true /\
  isMutating get_x = false /\
  result (isAllowed get_x fresh) = true /\
  transferState fresh !! getKey get_x = None /\
  last (responses (sample_next get_x)) = Some sample_response /\
  isMutating head_x = false /\
  result (isAllowed head_x fresh) = true /\
  transferState fresh !! getKey head_x = None /\
  head_x <> get_x /\
  result (request head_x failing_next (after (request get_x sample_next fresh))) =
    failing_next head_x.
Proof.
  do 8 (split; [reflexivity|]). split; [discriminate|].
  destruct (recorded_entry_serves_only_its_request fresh get_x head_x sample_next
              failing_next sample_response) as (_ & _ & Hres);
    [reflexivity.. | discriminate | exact Hres].
Defined.

(** X9. The recording does not look at the flag.  When the stability signal
    fires between a miss and the arrival of its response, subscribing still
    writes the snapshot under the key; the entry is then never served: the
    same request made afterwards is forwarded and the store is not read. *)
Theorem late_response_is_recorded_unused (this : TransferHttpCacheInterceptor)
    (req : HttpRequest) (next next' : HttpHandler) (event : HttpResponse) :
  isCacheActive this = true ->
  isMutating req = false ->
  result (isAllowed req this) = true ->
  transferState this !! getKey req = None ->
  last (responses (next req)) = Some event ->
  isCacheActive (after (isStable_emits true (after (intercept req next this)))) = false /\
  transferState
    (after (subscribe (result (intercept req next this))
              (after (isStable_emits true (after (intercept req next this))))))
    !! getKey req = Some (snapshot event) /\
  result (request req next'
            (after (subscribe (result (intercept req next this))
                      (after (isStable_emits true (after (intercept req next this)))))))
    = next' req /\
  effects (request req next'
             (after (subscribe (result (intercept req next this))
                       (after (isStable_emits true (after (intercept req next this)))))))
    = [Handle req].
Proof.
  intros Ha Hm Hal Hk Hlast.
  pose proof (not_disqualified this req Hm Hal) as Hd.
  rewrite intercept_miss by done. unfold result, after; cbn [fst snd subscribe].
  rewrite tap_eq. cbn [fst snd isStable_emits set_isCacheActive isCacheActive
                         transferState whitelist].
  rewrite recorded_last, Hlast.
  set (this1 := mkInterceptor _ _ _).
  assert (Hd1 : disqualified this1 req = false) by exact Hd.
  rewrite request_inactive by done.
  split; [done|]. split; [apply lookup_insert_eq | done].
Qed.

Lemma late_response_is_recorded_unused_witness :
  isCacheActive fresh = true /\
  isMutating get_x = false /\
  result (isAllowed get_x fresh) = true /\
  transferState fresh !! getKey get_x = None /\
  last (responses (sample_next get_x)) = Some sample_response /\
  isCacheActive (after (isStable_emits true (after (intercept get_x sample_next fresh))))
    = false.
Proof.
  do 5 (split; [reflexivity|]).
  destruct (late_response_is_recorded_unused fresh get_x sample_next failing_next
              sample_response) as (Hflag & _); [reflexivity..|].
  exact Hflag.
Defined.

(** X10. Requests in flight are not shared.  A miss leaves the instance as it
    was, so the same request intercepted again before any response has
    arrived is a miss again and calls the handler again; when both streams
    are consumed, the entry left is the snapshot of the stream consumed
    last. *)
Theorem no_in_flight_sharing (this : TransferHttpCacheInterceptor) (req : HttpRequest)
    (next1 next2 : HttpHandler) (event1 event2 : HttpResponse) :
  isCacheActive this = true ->
  isMutating req = false ->
  result (isAllowed req this) = true ->
  transferState this !! getKey req = None ->
  last (responses (next1 req)) = Some event1 ->
  last (responses (next2 req)) = Some event2 ->
  after (intercept req next1 this) = this /\
  result (intercept req next2 (after (intercept req next1 this))) =
    Tapped (next2 req) (getKey req) /\
  effects (intercept req next2 (after (intercept req next1 this))) =
    [StoreHasKey (getKey req); Handle req] /\
  transferState
    (after (subscribe (result (intercept req next2 (after (intercept req next1 this))))
              (after (subscribe (result (intercept req next1 this))
                        (after (intercept req next2 (after (intercept req next1 this))))))))
  = <[getKey req := snapshot event2]> (transferState this).
Proof.
  intros Ha Hm Hal Hk Hl1 Hl2.
  pose proof (not_disqualified this req Hm Hal) as Hd.
  assert (H1 : after (intercept req next1 this) = this)
    by (by rewrite intercept_miss).
  rewrite H1, (intercept_miss req next1), (intercept_miss req next2) by done.
  unfold result, after; cbn [fst snd subscribe].
  rewrite tap_eq. cbn [fst snd]. rewrite tap_eq. cbn [fst snd transferState].
  rewrite (recorded_last _ (responses (next2 req))), Hl2.
  rewrite recorded_last, Hl1.
  split; [done|]. split; [done|]. split; [done|]. apply insert_insert_eq.
Qed.

Lemma no_in_flight_sharing_witness :
  isCacheActive fresh = true /\
  isMutating get_x = false /\
  result (isAllowed get_x fresh) = true /\
  transferState fresh !! getKey get_x = None /\
  last (responses (sample_next get_x)) = Some sample_response /\
  last (responses (twice_next get_x)) = Some later_response /\
  effects (intercept get_x twice_next (after (intercept get_x sample_next fresh))) =
    [StoreHasKey (getKey get_x); Handle get_x].
Proof.
  do 6 (split; [reflexivity|]).
  destruct (no_in_flight_sharing fresh get_x sample_next twice_next sample_response
              later_response) as (_ & _ & Hlog & _); [reflexivity..|].
  exact Hlog.
Defined.

(** X11. Invalidation reaches every entry a read-only request to that URL
    could be served from: after an [intercept] of a mutating or not allowed
    request, no GET or HEAD request to the same URL has an entry under its
    key; and intercepting the same request once more leaves the store as the
    first call left it. *)
Theorem invalidation_covers_read_only (this : TransferHttpCacheInterceptor)
    (req req' : HttpRequest) (next next' : HttpHandler) :
  isMutating req = true \/ result (isAllowed req this) = false ->
  isMutating req' = false ->
  url req' = url req ->
  transferState (after (intercept req next this)) !! getKey req' = None /\
  transferState (after (intercept req next' (after (intercept req next this)))) =
    transferState (after (intercept req next this)).
Proof.
  intros Hdis Hm' Hurl. apply is_disqualified in Hdis.
  assert (H1 : after (intercept req next this) =
               mkInterceptor false (invalidated (url req) (transferState this))
                 (whitelist this))
    by (by rewrite intercept_disqualified).
  rewrite H1. set (this1 := mkInterceptor _ _ _).
  assert (Hd1 : disqualified this1 req = true) by exact Hdis.
  assert (H2 : after (intercept req next' this1) =
               mkInterceptor false (invalidated (url req) (transferState this1))
                 (whitelist this1))
    by (by rewrite intercept_disqualified).
  rewrite H2. subst this1. cbn [transferState].
  split.
  - rewrite invalidated_lookup, <- Hurl.
    destruct (getKey_read_only req' Hm') as [-> | ->]; rewrite decide_True; auto.
  - apply map_eq. intros key. rewrite !invalidated_lookup. by case_decide.
Qed.

Lemma invalidation_covers_read_only_witness :
  (isMutating post_x = true \/ result (isAllowed post_x warmed) = false) /\
  isMutating get_x = false /\
  url get_x = url post_x /\
  transferState (after (intercept post_x sample_next warmed)) !! getKey get_x = None.
Proof.
  split; [left; reflexivity|]. split; [reflexivity|]. split; [reflexivity|].
  destruct (invalidation_covers_read_only warmed post_x get_x sample_next sample_next)
    as (Hnone & _); [left; reflexivity | reflexivity | reflexivity |].
  exact Hnone.
Defined.

(** X12. Every request is answered in exactly one of two ways.  Either it is a
    hit (flag true, read-only, allowed, entry present): the handler is not
    called and the caller receives the one synthesized response, then
    completion.  Or the handler is called exactly once, with the request as
    it was given, and the caller receives the forwarded stream as it is. *)
Theorem answered_one_way (this : TransferHttpCacheInterceptor) (req : HttpRequest)
    (next : HttpHandler) :
  (exists response : TransferHttpResponse,
     isCacheActive this = true /\ isMutating req = false /\
     result (isAllowed req this) = true /\
     transferState this !! getKey req = Some response /\
     filter (fun e => isHandle e = true) (effects (request req next this)) = [] /\
     result (request req next this) =
       Next (HttpResponseEvent (synthesize response)) Complete) \/
  ((isCacheActive this = false \/ isMutating req = true \/
    result (isAllowed req this) = false \/ transferState this !! getKey req = None) /\
   filter (fun e => isHandle e = true) (effects (request req next this)) = [Handle req] /\
   result (request req next this) = next req).
Proof.
  assert (Hdq : disqualified this req = true ->
                isMutating req = true \/ result (isAllowed req this) = false).
  { rewrite isAllowed_eq. unfold disqualified, result; cbn [fst]. intros Hd.
    apply orb_true_iff in Hd as [Hm|Hn]; [by left|right].
    by apply negb_true_iff in Hn. }
  assert (Hnd : disqualified this req = false ->
                isMutating req = false /\ result (isAllowed req this) = true).
  { rewrite isAllowed_eq. unfold disqualified, result; cbn [fst]. intros Hd.
    apply orb_false_iff in Hd as [Hm Hn]. split; [done|].
    by apply negb_false_iff in Hn. }
  assert (Hset : forall rs : list HttpResponse,
             filter (fun e => isHandle e = true)
               (map (fun r => StoreSet (getKey req) (snapshot r)) rs) = []).
  { induction rs as [|r rs IH]; [done|]. cbn [map].
    by rewrite filter_cons_False by (cbn; discriminate). }
  destruct (disqualified this req) eqn:Hd.
  - right. rewrite request_disqualified by done. split; [|done].
    destruct (Hdq eq_refl); auto.
  - destruct (Hnd eq_refl) as [Hm Hal]. destruct (isCacheActive this) eqn:Ha.
    + destruct (transferState this !! getKey req) as [response|] eqn:Hk.
      * left. exists response. rewrite (request_hit _ _ _ response) by done. done.
      * right. rewrite request_miss by done.
        unfold result, effects; cbn [fst snd app].
        split; [auto|]. split; [|done].
        rewrite filter_cons_False by (cbn; discriminate).
        rewrite filter_cons_True by done. by rewrite Hset.
    + right. rewrite request_inactive by done. split; [auto | done].
Qed.
